(** * A shallow embedding of grep-rs ([src/main.rs])

    The program compiles a pattern with [tokenize_pattern] and decides a
    match with [match_pattern], [matchhere], [matchoneormore] and
    [matchone].

    Modelling choices.
    - A Rust [char] is its code point, a [Z].  A [&str] or [String] is the
      list of its chars; its byte length ([str::len]) is the sum of the
      UTF-8 lengths of its chars ([char::len_utf8]).  Byte-offset slicing
      [&s[i..]] is [str_slice_from], which panics when [i] is past the end
      or not on a char boundary, as Rust's slicing does.
    - Every function that can panic returns an [outcome]: [Returned v]
      for a normal return of [v], [Panicked p] for a [panic!] (or an
      implicit panic of an index, a slice or an [unwrap]) with its site.
    - The [Vec<Token>] of the tokenizer, which is only ever pushed and
      popped at its end, is a list whose head is the last token pushed;
      it is reversed when returned. *)

From Stdlib Require Import List ZArith String Ascii Bool Lia.
Import ListNotations.

Definition char := Z.

(** The code point of an ASCII character literal. *)
Definition chr (a : ascii) : char := Z.of_nat (nat_of_ascii a).

(** A pattern or subject written as an ASCII Rocq string. *)
Fixpoint chars_of (s : string) : list char :=
  match s with
  | EmptyString => []
  | String a s' => chr a :: chars_of s'
  end.

(** ** Panics and outcomes *)

Inductive panic :=
| QuantifierFirst (q : char)     (** [panic!("'+' cannot be the first token")], and ['?'] *)
| UnhandledEscape (c : char)     (** [panic!("Unhandled escape: \\{}", next)] *)
| EscapeAtEnd                    (** [panic!("Escape character at end of pattern")] *)
| QuantifierInMatchone           (** [panic!("Quantifier token should be handled in matchhere")] *)
| SliceIndexOutOfRange           (** [&tokens[1..]] on an empty slice *)
| StrIndexOutOfRange             (** [&text[i..]] with [i] past the end *)
| NotCharBoundary                (** [&text[i..]] with [i] inside a multi-byte char *)
| UnwrapNone.                    (** [.unwrap()] on [None] *)

Inductive outcome (A : Type) :=
| Returned (a : A)
| Panicked (p : panic).
Arguments Returned {A} a.
Arguments Panicked {A} p.

Definition bind {A B} (m : outcome A) (k : A -> outcome B) : outcome B :=
  match m with
  | Returned a => k a
  | Panicked p => Panicked p
  end.

Notation "x <- m ;; k" := (bind m (fun x => k))
  (at level 61, m at next level, right associativity).

(** [for i in lo..hi { if f(i) { return true; } } false] *)
Fixpoint range_any_from (i n : nat) (f : nat -> outcome bool) : outcome bool :=
  match n with
  | O => Returned false
  | S n' => b <- f i ;; if b then Returned true else range_any_from (S i) n' f
  end.

Definition range_any (lo hi : nat) (f : nat -> outcome bool) : outcome bool :=
  range_any_from lo (hi - lo) f.

(** [for x in xs { if f(x) { return true; } } false] *)
Fixpoint list_any {A} (xs : list A) (f : A -> outcome bool) : outcome bool :=
  match xs with
  | [] => Returned false
  | x :: xs' => b <- f x ;; if b then Returned true else list_any xs' f
  end.

(** ** Strings *)

(** [char::len_utf8] *)
Definition len_utf8 (c : char) : nat :=
  if (c <? 128)%Z then 1
  else if (c <? 2048)%Z then 2
  else if (c <? 65536)%Z then 3
  else 4.

(** [str::len], in bytes *)
Definition str_len (s : list char) : nat :=
  fold_right (fun c n => len_utf8 c + n) 0 s.

Definition is_empty (s : list char) : bool :=
  match s with [] => true | _ => false end.

(** [&s[i..]] for a byte offset [i] *)
Fixpoint str_slice_from (s : list char) (i : nat) {struct s} : outcome (list char) :=
  match s with
  | [] => if Nat.eqb i 0 then Returned [] else Panicked StrIndexOutOfRange
  | c :: s' =>
      if Nat.eqb i 0 then Returned s
      else if Nat.ltb i (len_utf8 c) then Panicked NotCharBoundary
      else str_slice_from s' (i - len_utf8 c)
  end.

(** [s.chars().next().unwrap()] *)
Definition first_char (s : list char) : outcome char :=
  match s with
  | c :: _ => Returned c
  | [] => Panicked UnwrapNone
  end.

(** [s.starts_with(prefix)] for a string [prefix].  UTF-8 is a prefix
    code, so a byte prefix of a [&str] is a char prefix and back. *)
Fixpoint starts_with (s prefix : list char) {struct prefix} : bool :=
  match prefix, s with
  | [], _ => true
  | p :: prefix', c :: s' => (c =? p)%Z && starts_with s' prefix'
  | _ :: _, [] => false
  end.

(** [s.starts_with(c)] and [s.ends_with(c)] for a char [c] *)
Definition starts_with_char (s : list char) (c : char) : bool :=
  match s with x :: _ => (x =? c)%Z | [] => false end.

Definition ends_with_char (s : list char) (c : char) : bool :=
  match rev s with x :: _ => (x =? c)%Z | [] => false end.

(** [s.split(sep).map(|s| s.to_string()).collect()] *)
Fixpoint split_on (sep : char) (s : list char) : list (list char) :=
  match s with
  | [] => [[]]
  | c :: s' =>
      let parts := split_on sep s' in
      if (c =? sep)%Z then [] :: parts
      else match parts with
           | p :: ps => (c :: p) :: ps
           | [] => [[c]]
           end
  end.

(** ** Tokens *)

Inductive token :=
| Literal (c : char)
| Digit
| Word
| Wildcard
| Class (s : list char)
| NegClass (s : list char)
| OneOrMore (t : token)
| ZeroOrOne (t : token)
| Alternation (options : list (list char)).

(** ** The tokenizer, [tokenize_pattern] *)

(** The [while let Some(c) = chars.next()] loop.  [tokens] is the vector
    with its last element first.  The inner loops that read a class up to
    [']'] and a group up to [')'] are [class_loop] and [group_loop]; when
    the chars run out inside them, the outer loop ends as well. *)
Fixpoint tokenize_loop (chars : list char) (tokens : list token) {struct chars}
  : outcome (list token) :=
  match chars with
  | [] => Returned tokens
  | c :: chars' =>
      if (c =? chr "+")%Z then
        match tokens with
        | last_token :: tokens' => tokenize_loop chars' (OneOrMore last_token :: tokens')
        | [] => Panicked (QuantifierFirst c)
        end
      else if (c =? chr "?")%Z then
        match tokens with
        | last_token :: tokens' => tokenize_loop chars' (ZeroOrOne last_token :: tokens')
        | [] => Panicked (QuantifierFirst c)
        end
      else if (c =? chr ".")%Z then tokenize_loop chars' (Wildcard :: tokens)
      else if (c =? chr "\")%Z then
        match chars' with
        | next :: chars'' =>
            if (next =? chr "d")%Z then tokenize_loop chars'' (Digit :: tokens)
            else if (next =? chr "w")%Z then tokenize_loop chars'' (Word :: tokens)
            else if (next =? chr "\")%Z then tokenize_loop chars'' (Literal (chr "\") :: tokens)
            else Panicked (UnhandledEscape next)
        | [] => Panicked EscapeAtEnd
        end
      else if (c =? chr "[")%Z then
        (* [if let Some(&'^') = chars.peek() { negated = true; chars.next(); }] *)
        match chars' with
        | x :: chars'' =>
            if (x =? chr "^")%Z then class_loop true chars'' [] tokens
            else class_loop false chars' [] tokens
        | [] => class_loop false chars' [] tokens
        end
      else if (c =? chr "(")%Z then group_loop chars' [] tokens
      else tokenize_loop chars' (Literal c :: tokens)
  end
with class_loop (negated : bool) (chars : list char) (class_content : list char)
  (tokens : list token) {struct chars} : outcome (list token) :=
  match chars with
  | ch :: chars' =>
      if (ch =? chr "]")%Z
      then tokenize_loop chars'
             ((if negated then NegClass class_content else Class class_content) :: tokens)
      else class_loop negated chars' (class_content ++ [ch]) tokens
  | [] => Returned ((if negated then NegClass class_content else Class class_content) :: tokens)
  end
with group_loop (chars : list char) (alternation_content : list char)
  (tokens : list token) {struct chars} : outcome (list token) :=
  match chars with
  | ch :: chars' =>
      if (ch =? chr ")")%Z
      then tokenize_loop chars' (Alternation (split_on (chr "|") alternation_content) :: tokens)
      else group_loop chars' (alternation_content ++ [ch]) tokens
  | [] => Returned (Alternation (split_on (chr "|") alternation_content) :: tokens)
  end.

(** [fn tokenize_pattern(pattern: &str) -> (bool, bool, Vec<Token>)] *)
Definition tokenize_pattern (pattern : list char) : outcome (bool * bool * list token) :=
  let anchor_start := starts_with_char pattern (chr "^") in
  let pattern1 := if anchor_start then tl pattern else pattern in
  let anchor_end := ends_with_char pattern1 (chr "$") in
  let pattern2 := if anchor_end then removelast pattern1 else pattern1 in
  tokens <- tokenize_loop pattern2 [] ;;
  Returned (anchor_start, anchor_end, rev tokens).

(** ** The matcher *)

Definition is_ascii_digit (c : char) : bool := ((48 <=? c) && (c <=? 57))%Z.

Definition is_ascii_alphanumeric (c : char) : bool :=
  (is_ascii_digit c || ((65 <=? c) && (c <=? 90)) || ((97 <=? c) && (c <=? 122)))%Z.

(** [fn matchone(next_char: char, token: &Token) -> bool] *)
Definition matchone (next_char : char) (t : token) : outcome bool :=
  match t with
  | Literal c => Returned (next_char =? c)%Z
  | Digit => Returned (is_ascii_digit next_char)
  | Word => Returned (is_ascii_alphanumeric next_char || (next_char =? chr "_")%Z)
  | Wildcard => Returned (negb (next_char =? 10)%Z)
  | Class s => Returned (existsb (fun c => (next_char =? c)%Z) s)
  | NegClass s => Returned (forallb (fun c => negb (next_char =? c)%Z) s)
  | _ => Panicked QuantifierInMatchone
  end.

(** [!text.is_empty() && matchone(text.chars().next().unwrap(), t)] *)
Definition first_matches (text : list char) (t : token) : outcome bool :=
  if is_empty text then Returned false
  else c <- first_char text ;; matchone c t.

(** [fn matchhere(text: &str, tokens: &[Token], anchor_end: bool) -> bool]
    and [fn matchoneormore(text: &str, inner_token: &Token, tokens: &[Token],
    anchor_end: bool) -> bool]; [matchhere] passes [&tokens[1..]] as the
    [tokens] of [matchoneormore]. *)
Fixpoint matchhere (text : list char) (tokens : list token) (anchor_end : bool)
  {struct tokens} : outcome bool :=
  match tokens with
  | [] => Returned (negb anchor_end || is_empty text)
  | OneOrMore inner_token :: rest => matchoneormore text inner_token rest anchor_end
  | ZeroOrOne inner_token :: rest =>
      took <- (m <- first_matches text inner_token ;;
               if m then (s <- str_slice_from text 1 ;; matchhere s rest anchor_end)
               else Returned false) ;;
      if took then Returned true else matchhere text rest anchor_end
  | Alternation options :: rest =>
      list_any options (fun option =>
        if starts_with text option
        then (s <- str_slice_from text (str_len option) ;; matchhere s rest anchor_end)
        else Returned false)
  | t :: rest =>
      m <- first_matches text t ;;
      if m then (s <- str_slice_from text 1 ;; matchhere s rest anchor_end)
      else Returned false
  end
with matchoneormore (text : list char) (inner_token : token) (tokens : list token)
  (anchor_end : bool) {struct tokens} : outcome bool :=
  m <- first_matches text inner_token ;;
  if negb m then Returned false
  else range_any 1 (str_len text) (fun i =>
         s <- str_slice_from text i ;;
         match tokens with
         | [] => Panicked SliceIndexOutOfRange
         | _ :: tokens_tail => matchhere s tokens_tail anchor_end
         end).

(** [fn match_pattern(text: &str, pattern: &str) -> bool] *)
Definition match_pattern (text pattern : list char) : outcome bool :=
  compiled <- tokenize_pattern pattern ;;
  let '(anchor_start, anchor_end, tokens) := compiled in
  if anchor_start then matchhere text tokens anchor_end
  else range_any 0 (str_len text) (fun i =>
         s <- str_slice_from text i ;; matchhere s tokens anchor_end).

(** ** Definitions that follow the spec's words

    These are compared with the definitions above in the theorems. *)

(** The pattern that the tokenizer scans, once the leading ['^'] and the
    trailing ['$'] are stripped, as in the first lines of
    [tokenize_pattern]. *)
Definition anchor_stripped (pattern : list char) : list char :=
  let pattern1 := if starts_with_char pattern (chr "^") then tl pattern else pattern in
  if ends_with_char pattern1 (chr "$") then removelast pattern1 else pattern1.

(** ['+'] or ['?'] with no token before it to wrap. *)
Definition dangling_quantifier (body : list char) : bool :=
  match body with
  | c :: _ => ((c =? chr "+") || (c =? chr "?"))%Z
  | [] => false
  end.

(** The left-to-right scan of the spec (section 4.1) that looks for a
    backslash followed by a char other than [d], [w] or a backslash, or a
    backslash at the end; class and group contents, up to their closing
    bracket, are read verbatim. *)
Inductive scan_mode := TopLevel | InBracket (close : char).

Fixpoint invalid_escape_scan (m : scan_mode) (cs : list char) : bool :=
  match cs with
  | [] => false
  | c :: cs' =>
      match m with
      | InBracket close =>
          if (c =? close)%Z then invalid_escape_scan TopLevel cs'
          else invalid_escape_scan m cs'
      | TopLevel =>
          if (c =? chr "\")%Z then
            match cs' with
            | [] => true
            | next :: cs'' =>
                if ((next =? chr "d") || (next =? chr "w") || (next =? chr "\"))%Z
                then invalid_escape_scan TopLevel cs''
                else true
            end
          else if (c =? chr "[")%Z then invalid_escape_scan (InBracket (chr "]")) cs'
          else if (c =? chr "(")%Z then invalid_escape_scan (InBracket (chr ")")) cs'
          else invalid_escape_scan TopLevel cs'
      end
  end.

(** How a compilation ends, given whether the stripped pattern starts
    with a dangling quantifier and whether the scan finds a bad escape:
    it returns a value when neither happens, and otherwise panics with
    the matching message. *)
Definition compile_outcome_ok {A} (o : outcome A) (dangling bad_escape : bool) : Prop :=
  match o with
  | Returned _ => dangling = false /\ bad_escape = false
  | Panicked (QuantifierFirst _) => dangling = true
  | Panicked (UnhandledEscape _) | Panicked EscapeAtEnd =>
      dangling = false /\ bad_escape = true
  | Panicked _ => False
  end.

(** The [OneOrMore] step as the spec (section 4.2) words it: the first
    char must satisfy the inner token, then for every split offset [i]
    from 1 up to the remaining length, in chars, try [matchhere] on the
    text after [i] chars against the tokens after the quantifier. *)
Definition oneormore_step_spec (text : list char) (inner_token : token)
  (rest : list token) (anchor_end : bool) : outcome bool :=
  m <- first_matches text inner_token ;;
  if negb m then Returned false
  else range_any 1 (S (List.length text)) (fun i => matchhere (skipn i text) rest anchor_end).

(** When the stack of tokens is empty, the next char decides a dangling
    quantifier; otherwise no quantifier can dangle. *)
Definition dangling_at (chars : list char) (tokens : list token) : bool :=
  match tokens with [] => dangling_quantifier chars | _ :: _ => false end.

(** ** The program entry point, [main] *)

(** [char::is_whitespace]: the Unicode [White_Space] property. *)
Definition is_whitespace (c : char) : bool :=
  (((9 <=? c) && (c <=? 13)) || (c =? 32) || (c =? 133) || (c =? 160) || (c =? 5760) ||
   ((8192 <=? c) && (c <=? 8202)) || (c =? 8232) || (c =? 8233) || (c =? 8239) ||
   (c =? 8287) || (c =? 12288))%Z.

(** The whitespace that [s.trim_end()] removes, read from the end: [r] is
    the string reversed. *)
Fixpoint drop_whitespace (r : list char) : list char :=
  match r with
  | c :: r' => if is_whitespace c then drop_whitespace r' else r
  | [] => []
  end.

(** [s.trim_end()] *)
Definition trim_end (s : list char) : list char := rev (drop_whitespace (rev s)).

(** [io::stdin().read_line(&mut input_line)] into an empty [String]: the
    chars of the input up to and including the first newline, or all of
    them.  The input is a sequence of chars, so the UTF-8 check of
    [read_line] cannot fail and its [.unwrap()] does not panic. *)
Fixpoint read_line (input : list char) : list char :=
  match input with
  | [] => []
  | c :: input' => if (c =? 10)%Z then [c] else c :: read_line input'
  end.

(** [==] on [&str] *)
Fixpoint str_eqb (s1 s2 : list char) : bool :=
  match s1, s2 with
  | [], [] => true
  | c1 :: s1', c2 :: s2' => (c1 =? c2)%Z && str_eqb s1' s2'
  | _, _ => false
  end.

(** [.unwrap()] on an [Option] *)
Definition unwrap {A} (o : option A) : outcome A :=
  match o with
  | Some a => Returned a
  | None => Panicked UnwrapNone
  end.

(** What [main] prints on stdout and the status it exits with. *)
Record run := { stdout : list char; exit_code : Z }.

(** [println!(s)] followed by [process::exit(code)] *)
Definition print_exit (s : string) (code : Z) : outcome run :=
  Returned {| stdout := chars_of s ++ [10%Z]; exit_code := code |}.

(** [fn main()], given the command line [env::args()] (the program name
    first) and the standard input. *)
Definition main (args : list (list char)) (stdin : list char) : outcome run :=
  arg1 <- unwrap (nth_error args 1) ;;
  if negb (str_eqb arg1 (chars_of "-E"))
  then print_exit "Expected first argument to be '-E'" 1
  else
    pattern <- unwrap (nth_error args 2) ;;
    let input_line := trim_end (read_line stdin) in
    m <- match_pattern input_line pattern ;;
    if m then print_exit "This is a match" 0
    else print_exit "This is not a match" 1.

(** ** Vocabulary for the properties of the matcher *)

(** [str::is_ascii] *)
Definition is_ascii (s : list char) : bool := forallb (fun c => (c <? 128)%Z) s.

(** The non-empty suffixes of a text, longest first. *)
Fixpoint suffixes (s : list char) : list (list char) :=
  match s with
  | [] => []
  | _ :: s' => s :: suffixes s'
  end.

(** The chars that the tokenizer treats specially somewhere in a
    pattern. *)
Definition special_char (c : char) : bool :=
  existsb (Z.eqb c) (chars_of "+?.\[(^$").

(** A pattern made of chars that all compile to [Literal]s. *)
Definition plain (p : list char) : bool := forallb (fun c => negb (special_char c)) p.

(** [options.join("|")] *)
Fixpoint join_on (sep : char) (parts : list (list char)) : list char :=
  match parts with
  | [] => []
  | [x] => x
  | x :: parts' => x ++ sep :: join_on sep parts'
  end.

(** ** Sanity checks on the examples of the spec *)

Example ex_abc : match_pattern (chars_of "xabcx") (chars_of "abc") = Returned true.
Proof. reflexivity. Qed.
Example ex_anchored : match_pattern (chars_of "xabcx") (chars_of "^abc$") = Returned false.
Proof. reflexivity. Qed.
Example ex_alternation : match_pattern (chars_of "I have a cat") (chars_of "(cat|dog)") = Returned true.
Proof. reflexivity. Qed.
Example ex_negclass : match_pattern (chars_of "x") (chars_of "[^abc]") = Returned true.
Proof. reflexivity. Qed.

(** ** Lemmas *)

Lemma tokenize_pattern_unfold (pattern : list char) :
  tokenize_pattern pattern =
  (tokens <- tokenize_loop (anchor_stripped pattern) [] ;;
   Returned (starts_with_char pattern (chr "^"),
             ends_with_char (if starts_with_char pattern (chr "^") then tl pattern else pattern)
                            (chr "$"),
             rev tokens)).
Proof. reflexivity. Qed.

(** An alternation with an empty option never returns false where the
    tokens after it match: it returns true or an earlier option panics. *)
Lemma alternation_empty_option_not_false (options : list (list char))
  (text : list char) (rest : list token) (anchor_end : bool)
  (Hin : In [] options) (Hrest : matchhere text rest anchor_end = Returned true) :
  matchhere text (Alternation options :: rest) anchor_end <> Returned false.
Proof.
  cbn [matchhere].
  induction options as [|option options IH]; [destruct Hin|].
  cbn [list_any].
  destruct Hin as [->|Hin].
  - destruct text as [|c text']; simpl; rewrite Hrest; simpl; discriminate.
  - destruct (if starts_with text option
              then s <- str_slice_from text (str_len option) ;; matchhere s rest anchor_end
              else Returned false) as [[|]|p]; simpl; [discriminate | exact (IH Hin) | discriminate].
Qed.

Lemma tokenize_loops_outcome (n : nat) :
  (forall chars tokens, List.length chars <= n ->
     compile_outcome_ok (tokenize_loop chars tokens) (dangling_at chars tokens)
       (invalid_escape_scan TopLevel chars)) /\
  (forall negated chars content tokens, List.length chars <= n ->
     compile_outcome_ok (class_loop negated chars content tokens) false
       (invalid_escape_scan (InBracket (chr "]")) chars)) /\
  (forall chars content tokens, List.length chars <= n ->
     compile_outcome_ok (group_loop chars content tokens) false
       (invalid_escape_scan (InBracket (chr ")")) chars)).
Proof.
  induction n as [|n IH].
  - split; [|split]; intros *; destruct chars; simpl; intros Hl; try lia;
      try (destruct tokens); simpl; auto.
  - destruct IH as (IHt & IHc & IHg).
    split; [|split].
    + intros [|c chars'] tokens Hl; [destruct tokens; simpl; auto|].
      simpl in Hl.
      cbn [tokenize_loop invalid_escape_scan].
      destruct (c =? chr "+")%Z eqn:E1.
      { apply Z.eqb_eq in E1; subst c.
        destruct tokens as [|t tokens']; [reflexivity|].
        exact (IHt chars' _ ltac:(lia)). }
      destruct (c =? chr "?")%Z eqn:E2.
      { apply Z.eqb_eq in E2; subst c.
        destruct tokens as [|t tokens']; [reflexivity|].
        exact (IHt chars' _ ltac:(lia)). }
      unfold dangling_at, dangling_quantifier. rewrite E1, E2. simpl orb.
      assert (Hd : forall b : bool, match tokens with [] => b | _ :: _ => b end = b)
        by (destruct tokens; reflexivity).
      rewrite Hd; clear Hd.
      destruct (c =? chr ".")%Z eqn:E3.
      { apply Z.eqb_eq in E3; subst c. apply IHt; lia. }
      destruct (c =? chr "\")%Z eqn:E4.
      { apply Z.eqb_eq in E4; subst c.
        destruct chars' as [|next chars'']; [split; reflexivity|].
        simpl in Hl.
        destruct (next =? chr "d")%Z eqn:Ed; [apply IHt; lia|].
        destruct (next =? chr "w")%Z eqn:Ew; [apply IHt; lia|].
        destruct (next =? chr "\")%Z eqn:Eb; [apply IHt; lia|].
        split; reflexivity. }
      destruct (c =? chr "[")%Z eqn:E5.
      { apply Z.eqb_eq in E5; subst c.
        destruct chars' as [|x chars''].
        - apply IHc; simpl; lia.
        - destruct (x =? chr "^")%Z eqn:Ex.
          + apply Z.eqb_eq in Ex; subst x. simpl in Hl.
            exact (IHc true chars'' [] tokens ltac:(lia)).
          + apply IHc; lia. }
      destruct (c =? chr "(")%Z eqn:E6.
      { apply Z.eqb_eq in E6; subst c. apply IHg; lia. }
      apply IHt; lia.
    + intros negated [|ch chars'] content tokens Hl; cbn [class_loop invalid_escape_scan].
      * split; reflexivity.
      * simpl in Hl.
        destruct (ch =? chr "]")%Z; [apply IHt | apply IHc]; lia.
    + intros [|ch chars'] content tokens Hl; cbn [group_loop invalid_escape_scan].
      * split; reflexivity.
      * simpl in Hl.
        destruct (ch =? chr ")")%Z; [apply IHt | apply IHg]; lia.
Qed.

(** ** Claims *)

(** C8: compiling ["^$"] gives both anchors and no token; the compiled
    pattern matches the empty subject and no other subject. *)
Theorem caret_dollar_matches_only_empty :
  tokenize_pattern (chars_of "^$") = Returned (true, true, []) /\
  match_pattern [] (chars_of "^$") = Returned true /\
  (forall (c : char) (text : list char),
     match_pattern (c :: text) (chars_of "^$") = Returned false).
Proof.
  split; [reflexivity|]. split; [reflexivity|].
  intros c text. reflexivity.
Qed.

(** C9: on the empty subject, a compiled pattern without [anchor_start]
    returns false (no start offset is tried), while one with
    [anchor_start] is tried at offset 0 with [matchhere]. *)
Theorem empty_subject_search (pattern : list char) (anchor_start anchor_end : bool)
  (tokens : list token)
  (H : tokenize_pattern pattern = Returned (anchor_start, anchor_end, tokens)) :
  match_pattern [] pattern =
  (if anchor_start then matchhere [] tokens anchor_end else Returned false).
Proof.
  unfold match_pattern. rewrite H. simpl.
  destruct anchor_start; reflexivity.
Qed.

(** The empty pattern and ["^"] both compile to no token; only the
    anchored one matches the empty subject. *)
Lemma empty_subject_search_witness :
  tokenize_pattern [] = Returned (false, false, []) /\
  match_pattern [] [] = Returned false /\
  tokenize_pattern (chars_of "^") = Returned (true, false, []) /\
  match_pattern [] (chars_of "^") = Returned true.
Proof.
  split; [reflexivity|]. split.
  - apply (empty_subject_search [] false false []). reflexivity.
  - split; [reflexivity|].
    rewrite (empty_subject_search (chars_of "^") true false []); reflexivity.
Defined.


(** C5 (counterexample): compilation does not return a typed error; it
    panics, so no value reaches the caller.  Also, ["+\z"] has a bad
    escape but fails on its dangling quantifier, and ["[\z]"] has a
    backslash followed by [z] inside a class and compiles. *)
Lemma tokenize_pattern_panics_not_error :
  tokenize_pattern (chars_of "+abc") = Panicked (QuantifierFirst (chr "+")) /\
  tokenize_pattern (chars_of "?x") = Panicked (QuantifierFirst (chr "?")) /\
  tokenize_pattern (chars_of "\z") = Panicked (UnhandledEscape (chr "z")) /\
  tokenize_pattern (chars_of "+\z") = Panicked (QuantifierFirst (chr "+")) /\
  tokenize_pattern (chars_of "[\z]") = Returned (false, false, [Class (chars_of "\z")]).
Proof. repeat split; reflexivity. Qed.

(** C5 (amended): compilation either returns a compiled pattern or panics.
    With [body] the pattern after the anchors are stripped: it panics with
    the dangling-quantifier message exactly when [body] starts with ['+']
    or ['?']; otherwise it panics with an escape message exactly when the
    left-to-right scan of [body], outside class and group contents, meets
    a backslash followed by a char other than [d], [w] or a backslash, or
    a backslash at the end; it never panics in another way. *)
Theorem tokenize_pattern_outcome (pattern : list char) :
  compile_outcome_ok (tokenize_pattern pattern)
    (dangling_quantifier (anchor_stripped pattern))
    (invalid_escape_scan TopLevel (anchor_stripped pattern)).
Proof.
  rewrite tokenize_pattern_unfold.
  pose proof (proj1 (tokenize_loops_outcome (List.length (anchor_stripped pattern)))
                (anchor_stripped pattern) [] (le_n _)) as H.
  destruct (tokenize_loop (anchor_stripped pattern) []); exact H.
Qed.

(** C1 (code bug): matching panics on patterns the compiler accepts.
    With ["a+"] on ["aa"], [matchoneormore] takes [&tokens[1..]] of the
    empty slice after the quantifier; with ["."] on a two-byte char,
    [&text[1..]] is not on a char boundary; with ["a++"], [matchone]
    meets a quantifier token. *)
Theorem matching_panics_on_accepted_patterns :
  tokenize_pattern (chars_of "a+") = Returned (false, false, [OneOrMore (Literal (chr "a"))]) /\
  match_pattern (chars_of "aa") (chars_of "a+") = Panicked SliceIndexOutOfRange /\
  match_pattern [233%Z] (chars_of ".") = Panicked NotCharBoundary /\
  match_pattern (chars_of "a") (chars_of "a++") = Panicked QuantifierInMatchone.
Proof. repeat split; reflexivity. Qed.

(** C2 (code bug): with ["a+"], the empty subject gives false, but ["a"]
    gives false as well and ["aaa"] panics. *)
Theorem a_plus_examples :
  match_pattern [] (chars_of "a+") = Returned false /\
  match_pattern (chars_of "a") (chars_of "a+") = Returned false /\
  match_pattern (chars_of "aaa") (chars_of "a+") = Panicked SliceIndexOutOfRange.
Proof. repeat split; reflexivity. Qed.

(** C3 (code bug): the [OneOrMore] step of the code differs from the one
    of the spec.  The code tries offsets [1 .. len - 1] only and matches
    against the tokens after the one that follows the quantifier. *)
Theorem oneormore_step_differs :
  matchhere (chars_of "ax") [OneOrMore (Literal (chr "a")); Literal (chr "b")] false
    = Returned true /\
  oneormore_step_spec (chars_of "ax") (Literal (chr "a")) [Literal (chr "b")] false
    = Returned false /\
  matchhere (chars_of "a") [OneOrMore (Literal (chr "a"))] false = Returned false /\
  oneormore_step_spec (chars_of "a") (Literal (chr "a")) [] false = Returned true.
Proof. repeat split; reflexivity. Qed.

(** C4 (code bug): the unanchored search never tries the offset equal to
    the subject length.  With ["x?$"] on ["b"], the attempt at offset 1
    (the empty rest) would succeed, yet the search returns false. *)
Theorem search_skips_end_offset :
  tokenize_pattern (chars_of "x?$") = Returned (false, true, [ZeroOrOne (Literal (chr "x"))]) /\
  matchhere [] [ZeroOrOne (Literal (chr "x"))] true = Returned true /\
  match_pattern (chars_of "b") (chars_of "x?$") = Returned false.
Proof. repeat split; reflexivity. Qed.

(** C6 (code bug): the matcher steps by bytes, so a subject with a
    multi-byte char panics: [&text[1..]] after a match on it, and the
    unanchored loop, which takes every byte offset as a start. *)
Theorem multibyte_subject_panics :
  match_pattern [233%Z] (chars_of ".") = Panicked NotCharBoundary /\
  match_pattern [233%Z; chr "a"] (chars_of "a") = Panicked NotCharBoundary.
Proof. split; reflexivity. Qed.

(** C7 (code bug): ["a++"] compiles to a [OneOrMore] around a [OneOrMore],
    and matching it applies [matchone] to the inner quantifier, which
    reaches its fatal branch. *)
Theorem nested_quantifier_reaches_matchone :
  tokenize_pattern (chars_of "a++")
    = Returned (false, false, [OneOrMore (OneOrMore (Literal (chr "a")))]) /\
  match_pattern (chars_of "a") (chars_of "a++") = Panicked QuantifierInMatchone.
Proof. split; reflexivity. Qed.

(** C10 (code bug): with ["(a|)."] on ["a" followed by U+00E9], the tokens
    after the alternation match the whole subject, but the option ["a"]
    is tried first and its attempt panics on the two-byte char, so the
    empty option is never reached. *)
Theorem empty_option_not_reached :
  tokenize_pattern (chars_of "(a|).")
    = Returned (false, false, [Alternation [chars_of "a"; []]; Wildcard]) /\
  matchhere [chr "a"; 233%Z] [Wildcard] false = Returned true /\
  matchhere [chr "a"; 233%Z] [Alternation [chars_of "a"; []]; Wildcard] false
    = Panicked NotCharBoundary.
Proof. repeat split; reflexivity. Qed.

(** ** More of the code: [main], and the matcher on ASCII subjects *)

Example ex_main_match :
  main [chars_of "grep"; chars_of "-E"; chars_of "\d+b"]
       (chars_of "a12b  " ++ [10%Z] ++ chars_of "rest")
  = print_exit "This is a match" 0.
Proof. reflexivity. Qed.

Lemma range_any_from_shift (i n : nat) (f : nat -> outcome bool) :
  range_any_from (S i) n f = range_any_from i n (fun j => f (S j)).
Proof.
  revert i. induction n as [|n IH]; intros i; simpl; [reflexivity|].
  destruct (f (S i)) as [[|]|p]; simpl; [reflexivity| |reflexivity].
  apply IH.
Qed.

Lemma range_any_from_ext (i n : nat) (f g : nat -> outcome bool) :
  (forall j, f j = g j) -> range_any_from i n f = range_any_from i n g.
Proof.
  intros Hfg. revert i. induction n as [|n IH]; intros i; simpl; [reflexivity|].
  rewrite Hfg. destruct (g i) as [[|]|p]; simpl; auto.
Qed.

Lemma len_utf8_ascii (c : char) : (c <? 128)%Z = true -> len_utf8 c = 1.
Proof. intros H. unfold len_utf8. rewrite H. reflexivity. Qed.

Lemma str_slice_from_ascii_S (c : char) (s : list char) (j : nat) :
  (c <? 128)%Z = true -> str_slice_from (c :: s) (S j) = str_slice_from s j.
Proof.
  intros H. simpl. rewrite (len_utf8_ascii c H). simpl. rewrite Nat.sub_0_r. reflexivity.
Qed.

Lemma str_len_ascii (s : list char) : is_ascii s = true -> str_len s = List.length s.
Proof.
  induction s as [|c s IH]; simpl; [reflexivity|].
  intros H. apply andb_prop in H as [Hc Hs].
  rewrite (len_utf8_ascii c Hc), (IH Hs). reflexivity.
Qed.

(** On an ASCII text, the unanchored search loop tries the non-empty
    suffixes of the text, longest first. *)
Lemma search_ascii (t : list char) (f : list char -> outcome bool) :
  is_ascii t = true ->
  range_any 0 (str_len t) (fun i => s <- str_slice_from t i ;; f s) =
  list_any (suffixes t) f.
Proof.
  unfold range_any. rewrite Nat.sub_0_r.
  induction t as [|c t IH]; intros H; [reflexivity|].
  simpl in H. apply andb_prop in H as [Hc Ht].
  cbn [str_len fold_right]. fold (str_len t).
  rewrite (len_utf8_ascii c Hc). cbn [Nat.add range_any_from suffixes list_any].
  cbn [str_slice_from Nat.eqb bind].
  destruct (f (c :: t)) as [[|]|p]; cbn [bind]; [reflexivity| |reflexivity].
  rewrite range_any_from_shift.
  rewrite (range_any_from_ext 0 _ _ (fun j => s <- str_slice_from t j ;; f s)).
  - apply IH, Ht.
  - intros j. simpl. rewrite (len_utf8_ascii c Hc). simpl. rewrite Nat.sub_0_r. reflexivity.
Qed.

Lemma list_any_returned {A} (xs : list A) (f : A -> outcome bool) (g : A -> bool) :
  (forall x, In x xs -> f x = Returned (g x)) -> list_any xs f = Returned (existsb g xs).
Proof.
  induction xs as [|x xs IH]; intros H; [reflexivity|].
  simpl. rewrite (H x (or_introl eq_refl)). destruct (g x); simpl; [reflexivity|].
  apply IH. intros y Hy. apply H. right. exact Hy.
Qed.

Lemma suffixes_nonempty (t s : list char) : In s (suffixes t) -> s <> [].
Proof.
  induction t as [|c t IH]; simpl; [contradiction|].
  intros [<-|Hin]; [discriminate | exact (IH Hin)].
Qed.

Lemma suffixes_ascii (t s : list char) : is_ascii t = true -> In s (suffixes t) -> is_ascii s = true.
Proof.
  induction t as [|c t IH]; simpl; [contradiction|].
  intros H [<-|Hin]; [exact H|].
  apply andb_prop in H as [_ Ht]. exact (IH Ht Hin).
Qed.

Lemma existsb_suffixes_head (test : char -> bool) (t : list char) :
  existsb (fun s => match s with c :: _ => test c | [] => false end) (suffixes t) =
  existsb test t.
Proof. induction t as [|c t IH]; simpl; [reflexivity|]. rewrite IH. reflexivity. Qed.

(** The unanchored search on an ASCII subject tries the non-empty
    suffixes of the subject, longest first, and stops at the first that
    matches or panics. *)
Theorem match_pattern_ascii_search (t pattern : list char) (anchor_end : bool)
  (tokens : list token)
  (Ht : is_ascii t = true)
  (H : tokenize_pattern pattern = Returned (false, anchor_end, tokens)) :
  match_pattern t pattern = list_any (suffixes t) (fun s => matchhere s tokens anchor_end).
Proof.
  unfold match_pattern. rewrite H. cbn [bind]. apply search_ascii, Ht.
Qed.

Lemma match_pattern_ascii_search_witness :
  tokenize_pattern (chars_of "b") = Returned (false, false, [Literal (chr "b")]) /\
  match_pattern (chars_of "ab") (chars_of "b") =
  list_any [chars_of "ab"; chars_of "b"] (fun s => matchhere s [Literal (chr "b")] false).
Proof.
  split; [reflexivity|].
  apply (match_pattern_ascii_search (chars_of "ab") (chars_of "b") false [Literal (chr "b")]);
    reflexivity.
Defined.

Lemma special_char_false (c : char) :
  special_char c = false ->
  (c =? chr "+")%Z = false /\ (c =? chr "?")%Z = false /\ (c =? chr ".")%Z = false /\
  (c =? chr "\")%Z = false /\ (c =? chr "[")%Z = false /\ (c =? chr "(")%Z = false /\
  (c =? chr "^")%Z = false /\ (c =? chr "$")%Z = false.
Proof.
  unfold special_char. cbn [chars_of existsb]. intros H.
  repeat (apply orb_false_iff in H as [? H]). repeat split; assumption.
Qed.

Lemma plain_In (p : list char) (c : char) : plain p = true -> In c p -> special_char c = false.
Proof.
  unfold plain. rewrite forallb_forall. intros H Hin. apply negb_true_iff, H, Hin.
Qed.

Lemma tokenize_loop_plain (p : list char) (tokens : list token) :
  plain p = true -> tokenize_loop p tokens = Returned (rev (map Literal p) ++ tokens).
Proof.
  revert tokens. induction p as [|c p IH]; intros tokens H; [reflexivity|].
  simpl in H. apply andb_prop in H as [Hc Hp]. apply negb_true_iff in Hc.
  destruct (special_char_false c Hc) as (E1 & E2 & E3 & E4 & E5 & E6 & _).
  cbn [tokenize_loop]. rewrite E1, E2, E3, E4, E5, E6.
  rewrite (IH _ Hp). simpl. rewrite <- app_assoc. reflexivity.
Qed.

Lemma ends_with_char_snoc (l : list char) (x c : char) :
  ends_with_char (l ++ [x]) c = (x =? c)%Z.
Proof. unfold ends_with_char. rewrite rev_unit. reflexivity. Qed.

Lemma ends_with_char_plain (p : list char) :
  plain p = true -> ends_with_char p (chr "$") = false.
Proof.
  intros H. destruct p as [|c p] using rev_ind; [reflexivity|].
  rewrite ends_with_char_snoc.
  assert (Hc : special_char c = false) by (apply (plain_In _ _ H), in_or_app; right; left; reflexivity).
  destruct (special_char_false c Hc) as (_ & _ & _ & _ & _ & _ & _ & E). exact E.
Qed.

Lemma starts_with_char_plain (p : list char) :
  plain p = true -> starts_with_char p (chr "^") = false.
Proof.
  intros H. destruct p as [|c p]; [reflexivity|].
  assert (Hc : special_char c = false) by (apply (plain_In _ _ H); left; reflexivity).
  destruct (special_char_false c Hc) as (_ & _ & _ & _ & _ & _ & E & _). exact E.
Qed.

Lemma tokenize_pattern_plain (p : list char) :
  plain p = true -> tokenize_pattern p = Returned (false, false, map Literal p).
Proof.
  intros H. unfold tokenize_pattern.
  rewrite (starts_with_char_plain p H), (ends_with_char_plain p H).
  rewrite (tokenize_loop_plain p [] H). cbn [bind].
  rewrite app_nil_r, rev_involutive. reflexivity.
Qed.

Lemma tokenize_pattern_caret (p : list char) :
  plain p = true -> tokenize_pattern (chr "^" :: p) = Returned (true, false, map Literal p).
Proof.
  intros H. unfold tokenize_pattern. cbn [starts_with_char tl].
  rewrite Z.eqb_refl. rewrite (ends_with_char_plain p H).
  rewrite (tokenize_loop_plain p [] H). cbn [bind].
  rewrite app_nil_r, rev_involutive. reflexivity.
Qed.

Lemma tokenize_pattern_caret_dollar (p : list char) :
  plain p = true ->
  tokenize_pattern (chr "^" :: p ++ [chr "$"]) = Returned (true, true, map Literal p).
Proof.
  intros H. unfold tokenize_pattern. cbn [starts_with_char tl].
  rewrite Z.eqb_refl. rewrite ends_with_char_snoc, Z.eqb_refl, removelast_last.
  rewrite (tokenize_loop_plain p [] H). cbn [bind].
  rewrite app_nil_r, rev_involutive. reflexivity.
Qed.

Lemma str_slice_from_one_ascii (c : char) (s : list char) :
  (c <? 128)%Z = true -> str_slice_from (c :: s) 1 = Returned s.
Proof.
  intros Hc. rewrite (str_slice_from_ascii_S c s 0 Hc). destruct s; reflexivity.
Qed.

Lemma matchhere_literals_prefix (s p : list char) :
  is_ascii p = true -> matchhere s (map Literal p) false = Returned (starts_with s p).
Proof.
  revert s. induction p as [|c p IH]; intros s Hp; [reflexivity|].
  simpl in Hp. apply andb_prop in Hp as [Hc Hp].
  destruct s as [|x s]; [reflexivity|].
  cbn [map matchhere first_matches is_empty first_char bind matchone starts_with].
  destruct (x =? c)%Z eqn:E; cbn [bind andb]; [|reflexivity].
  apply Z.eqb_eq in E. subst x.
  rewrite (str_slice_from_one_ascii c s Hc). cbn [bind]. apply IH, Hp.
Qed.

Lemma matchhere_literals_exact (s p : list char) :
  is_ascii p = true -> matchhere s (map Literal p) true = Returned (str_eqb s p).
Proof.
  revert s. induction p as [|c p IH]; intros s Hp; [destruct s; reflexivity|].
  simpl in Hp. apply andb_prop in Hp as [Hc Hp].
  destruct s as [|x s]; [reflexivity|].
  cbn [map matchhere first_matches is_empty first_char bind matchone str_eqb].
  destruct (x =? c)%Z eqn:E; cbn [bind andb]; [|reflexivity].
  apply Z.eqb_eq in E. subst x.
  rewrite (str_slice_from_one_ascii c s Hc). cbn [bind]. apply IH, Hp.
Qed.

(** A pattern of plain ASCII chars, searched in an ASCII subject, matches
    exactly when it is a substring of the subject (the empty pattern:
    when the subject is not empty). *)
Theorem plain_pattern_is_substring_search (t p : list char)
  (Hp : plain p = true) (Hpa : is_ascii p = true) (Ht : is_ascii t = true) :
  match_pattern t p = Returned (existsb (fun s => starts_with s p) (suffixes t)).
Proof.
  rewrite (match_pattern_ascii_search t p false (map Literal p) Ht (tokenize_pattern_plain p Hp)).
  apply list_any_returned. intros s _. apply matchhere_literals_prefix, Hpa.
Qed.

Lemma plain_pattern_is_substring_search_witness :
  match_pattern (chars_of "xabcx") (chars_of "abc") = Returned true /\
  match_pattern (chars_of "xabx") (chars_of "abc") = Returned false.
Proof.
  split.
  - rewrite (plain_pattern_is_substring_search (chars_of "xabcx") (chars_of "abc"));
      reflexivity.
  - rewrite (plain_pattern_is_substring_search (chars_of "xabx") (chars_of "abc"));
      reflexivity.
Defined.

(** ["^p$"], for plain ASCII chars [p], matches a subject (of any chars)
    exactly when the subject equals [p]. *)
Theorem anchored_plain_pattern_is_equality (t p : list char)
  (Hp : plain p = true) (Hpa : is_ascii p = true) :
  match_pattern t (chr "^" :: p ++ [chr "$"]) = Returned (str_eqb t p).
Proof.
  unfold match_pattern. rewrite (tokenize_pattern_caret_dollar p Hp). cbn [bind].
  apply matchhere_literals_exact, Hpa.
Qed.

Lemma anchored_plain_pattern_is_equality_witness :
  match_pattern (chars_of "abc") (chars_of "^abc$") = Returned true /\
  match_pattern (chars_of "abcd") (chars_of "^abc$") = Returned false.
Proof.
  split.
  - exact (anchored_plain_pattern_is_equality (chars_of "abc") (chars_of "abc")
             eq_refl eq_refl).
  - exact (anchored_plain_pattern_is_equality (chars_of "abcd") (chars_of "abc")
             eq_refl eq_refl).
Defined.

(** ["^p"], for plain ASCII chars [p], matches a subject (of any chars)
    exactly when the subject starts with [p]. *)
Theorem caret_plain_pattern_is_prefix (t p : list char)
  (Hp : plain p = true) (Hpa : is_ascii p = true) :
  match_pattern t (chr "^" :: p) = Returned (starts_with t p).
Proof.
  unfold match_pattern. rewrite (tokenize_pattern_caret p Hp). cbn [bind].
  apply matchhere_literals_prefix, Hpa.
Qed.

Lemma caret_plain_pattern_is_prefix_witness :
  match_pattern (chars_of "abcd") (chars_of "^ab") = Returned true.
Proof.
  exact (caret_plain_pattern_is_prefix (chars_of "abcd") (chars_of "ab") eq_refl eq_refl).
Defined.

Lemma str_len_cons (c : char) (s : list char) : exists k, str_len (c :: s) = S k.
Proof.
  cbn [str_len fold_right]. unfold len_utf8.
  destruct (c <? 128)%Z; [|destruct (c <? 2048)%Z; [|destruct (c <? 65536)%Z]];
    eexists; reflexivity.
Qed.

(** The empty pattern matches every non-empty subject, of any chars, and
    not the empty one. *)
Theorem empty_pattern_matches_nonempty (t : list char) :
  match_pattern t [] = Returned (negb (is_empty t)).
Proof.
  unfold match_pattern. cbn [tokenize_pattern starts_with_char ends_with_char rev
                             tokenize_loop bind].
  destruct t as [|c t]; [reflexivity|].
  destruct (str_len_cons c t) as [k Hk].
  unfold range_any. rewrite Hk. reflexivity.
Qed.

(** The pattern ["$"] matches no ASCII subject: the search never tries
    the empty suffix. *)
Theorem dollar_matches_no_ascii_subject (t : list char) (Ht : is_ascii t = true) :
  match_pattern t [chr "$"] = Returned false.
Proof.
  rewrite (match_pattern_ascii_search t [chr "$"] true [] Ht eq_refl).
  rewrite (list_any_returned _ _ is_empty).
  - f_equal. induction t as [|c t IH]; [reflexivity|].
    simpl in Ht. apply andb_prop in Ht as [_ Ht]. exact (IH Ht).
  - intros s _. reflexivity.
Qed.

Lemma dollar_matches_no_ascii_subject_witness :
  match_pattern (chars_of "ab") [chr "$"] = Returned false.
Proof. exact (dollar_matches_no_ascii_subject (chars_of "ab") eq_refl). Defined.

Lemma matchhere_atomic (tok : token) (test : char -> bool) (s : list char)
  (Htok : forall c, matchone c tok = Returned (test c)) (Hs : is_ascii s = true) :
  matchhere s [tok] false = Returned (match s with c :: _ => test c | [] => false end).
Proof.
  destruct s as [|c s].
  - destruct tok; try reflexivity; specialize (Htok 0%Z); discriminate.
  - simpl in Hs. apply andb_prop in Hs as [Hc _].
    assert (Hm : first_matches (c :: s) tok = Returned (test c))
      by (unfold first_matches; cbn [is_empty first_char bind]; apply Htok).
    assert (Hk : forall m : outcome bool, m = Returned (test c) ->
              (b <- m ;; if b then (r <- str_slice_from (c :: s) 1 ;; matchhere r [] false)
                         else Returned false) = Returned (test c)).
    { intros m ->. cbn [bind]. destruct (test c); [|reflexivity].
      rewrite (str_slice_from_one_ascii c s Hc). reflexivity. }
    destruct tok; try (specialize (Htok 0%Z); discriminate);
      cbn [matchhere]; apply Hk, Hm.
Qed.

(** A pattern that compiles to one char-test token, searched in an ASCII
    subject, matches exactly when some char of the subject passes the
    test. *)
Lemma atomic_pattern_search (t pattern : list char) (tok : token) (test : char -> bool)
  (Htok : forall c, matchone c tok = Returned (test c))
  (H : tokenize_pattern pattern = Returned (false, false, [tok]))
  (Ht : is_ascii t = true) :
  match_pattern t pattern = Returned (existsb test t).
Proof.
  rewrite (match_pattern_ascii_search t pattern false [tok] Ht H).
  rewrite <- existsb_suffixes_head.
  apply list_any_returned. intros s Hin.
  apply matchhere_atomic; [exact Htok | exact (suffixes_ascii t s Ht Hin)].
Qed.

Lemma no_char (c : char) (s : list char) : existsb (Z.eqb c) s = false -> ~ In c s.
Proof.
  intros H Hin. assert (Hx : existsb (Z.eqb c) s = true)
    by (apply existsb_exists; exists c; split; [exact Hin | apply Z.eqb_refl]).
  congruence.
Qed.

(** Reading a class up to its first [']']. *)
Lemma class_loop_closed (negated : bool) (s rest content : list char) (tokens : list token) :
  existsb (Z.eqb (chr "]")) s = false ->
  class_loop negated (s ++ chr "]" :: rest) content tokens =
  tokenize_loop rest
    ((if negated then NegClass (content ++ s) else Class (content ++ s)) :: tokens).
Proof.
  revert content. induction s as [|c s IH]; intros content H.
  - cbn [app class_loop]. rewrite Z.eqb_refl, app_nil_r. reflexivity.
  - cbn [existsb] in H. apply orb_false_iff in H as [Hc H].
    cbn [app class_loop]. rewrite Z.eqb_sym, Hc. rewrite (IH _ H), <- app_assoc. reflexivity.
Qed.


Lemma group_loop_closed (g rest content : list char) (tokens : list token) :
  existsb (Z.eqb (chr ")")) g = false ->
  group_loop (g ++ chr ")" :: rest) content tokens =
  tokenize_loop rest (Alternation (split_on (chr "|") (content ++ g)) :: tokens).
Proof.
  revert content. induction g as [|c g IH]; intros content H.
  - cbn [app group_loop]. rewrite Z.eqb_refl, app_nil_r. reflexivity.
  - cbn [existsb] in H. apply orb_false_iff in H as [Hc H].
    cbn [app group_loop]. rewrite Z.eqb_sym, Hc. rewrite (IH _ H), <- app_assoc. reflexivity.
Qed.


Lemma tokenize_pattern_no_anchor (p : list char) :
  starts_with_char p (chr "^") = false -> ends_with_char p (chr "$") = false ->
  tokenize_pattern p = (tokens <- tokenize_loop p [] ;; Returned (false, false, rev tokens)).
Proof.
  intros H1 H2. unfold tokenize_pattern. cbv zeta. rewrite H1. cbv iota.
  rewrite H2. reflexivity.
Qed.

Lemma tokenize_pattern_class (s : list char) :
  existsb (Z.eqb (chr "]")) s = false -> starts_with_char s (chr "^") = false ->
  tokenize_pattern (chr "[" :: s ++ [chr "]"]) = Returned (false, false, [Class s]).
Proof.
  intros H Hs. rewrite tokenize_pattern_no_anchor;
    [| reflexivity | exact (ends_with_char_snoc (chr "[" :: s) (chr "]") (chr "$"))].
  assert (Hl : tokenize_loop (chr "[" :: s ++ [chr "]"]) [] =
               class_loop false (s ++ [chr "]"]) [] []).
  { destruct s as [|c s]; [reflexivity|].
    cbn [tokenize_loop app]. cbn [starts_with_char] in Hs. rewrite Hs. reflexivity. }
  rewrite Hl, (class_loop_closed false s [] [] [] H). reflexivity.
Qed.

Lemma tokenize_pattern_negclass (s : list char) :
  existsb (Z.eqb (chr "]")) s = false ->
  tokenize_pattern (chr "[" :: chr "^" :: s ++ [chr "]"]) = Returned (false, false, [NegClass s]).
Proof.
  intros H. rewrite tokenize_pattern_no_anchor;
    [| reflexivity | exact (ends_with_char_snoc (chr "[" :: chr "^" :: s) (chr "]") (chr "$"))].
  cbn [tokenize_loop]. rewrite (class_loop_closed true s [] [] [] H). reflexivity.
Qed.

(** ["[s]"], with [s] free of [']'] and not starting with ['^'], searched
    in an ASCII subject, matches exactly when a char of the subject is
    one of the chars of [s]. *)
Theorem class_pattern_search (t s : list char)
  (Hs : existsb (Z.eqb (chr "]")) s = false) (Hneg : starts_with_char s (chr "^") = false)
  (Ht : is_ascii t = true) :
  match_pattern t (chr "[" :: s ++ [chr "]"]) =
  Returned (existsb (fun c => existsb (fun d => (c =? d)%Z) s) t).
Proof.
  apply (atomic_pattern_search t _ (Class s)); [reflexivity | | exact Ht].
  apply tokenize_pattern_class; assumption.
Qed.

Lemma class_pattern_search_witness :
  match_pattern (chars_of "xay") (chars_of "[abc]") = Returned true /\
  match_pattern (chars_of "xyz") (chars_of "[abc]") = Returned false.
Proof.
  split.
  - exact (class_pattern_search (chars_of "xay") (chars_of "abc") eq_refl eq_refl eq_refl).
  - exact (class_pattern_search (chars_of "xyz") (chars_of "abc") eq_refl eq_refl eq_refl).
Defined.

(** ["[^s]"], with [s] free of [']'], searched in an ASCII subject,
    matches exactly when a char of the subject is none of the chars of
    [s]. *)
Theorem negclass_pattern_search (t s : list char)
  (Hs : existsb (Z.eqb (chr "]")) s = false) (Ht : is_ascii t = true) :
  match_pattern t (chr "[" :: chr "^" :: s ++ [chr "]"]) =
  Returned (existsb (fun c => forallb (fun d => negb (c =? d)%Z) s) t).
Proof.
  apply (atomic_pattern_search t _ (NegClass s)); [reflexivity | | exact Ht].
  apply tokenize_pattern_negclass, Hs.
Qed.

Lemma negclass_pattern_search_witness :
  match_pattern (chars_of "abcx") (chars_of "[^abc]") = Returned true /\
  match_pattern (chars_of "cab") (chars_of "[^abc]") = Returned false.
Proof.
  split.
  - exact (negclass_pattern_search (chars_of "abcx") (chars_of "abc") eq_refl eq_refl).
  - exact (negclass_pattern_search (chars_of "cab") (chars_of "abc") eq_refl eq_refl).
Defined.

(** ["\d"], ["\w"] and ["."], searched in an ASCII subject, match exactly
    when the subject has an ASCII digit, an ASCII letter, digit or
    underscore, and a char other than a newline, respectively. *)
Theorem escape_and_wildcard_search (t : list char) (Ht : is_ascii t = true) :
  match_pattern t (chars_of "\d") = Returned (existsb is_ascii_digit t) /\
  match_pattern t (chars_of "\w") =
    Returned (existsb (fun c => is_ascii_alphanumeric c || (c =? chr "_")%Z) t) /\
  match_pattern t (chars_of ".") = Returned (existsb (fun c => negb (c =? 10)%Z) t).
Proof.
  split; [|split].
  - apply (atomic_pattern_search t _ Digit); [reflexivity | reflexivity | exact Ht].
  - apply (atomic_pattern_search t _ Word); [reflexivity | reflexivity | exact Ht].
  - apply (atomic_pattern_search t _ Wildcard); [reflexivity | reflexivity | exact Ht].
Qed.

Lemma escape_and_wildcard_search_witness :
  match_pattern (chars_of "a1") (chars_of "\d") = Returned true /\
  match_pattern (chars_of "a-") (chars_of "\d") = Returned false.
Proof.
  destruct (escape_and_wildcard_search (chars_of "a1") eq_refl) as [H1 _].
  destruct (escape_and_wildcard_search (chars_of "a-") eq_refl) as [H2 _].
  split; [exact H1 | exact H2].
Defined.

Lemma split_on_not_nil (sep : char) (s : list char) : split_on sep s <> [].
Proof.
  destruct s as [|c s]; simpl; [discriminate|].
  destruct (c =? sep)%Z; [discriminate|]. destruct (split_on sep s); discriminate.
Qed.

Lemma join_on_cons (sep c : char) (p : list char) (ps : list (list char)) :
  join_on sep ((c :: p) :: ps) = c :: join_on sep (p :: ps).
Proof. destruct ps; reflexivity. Qed.

Lemma join_split_on (sep : char) (s : list char) : join_on sep (split_on sep s) = s.
Proof.
  induction s as [|c s IH]; [reflexivity|].
  cbn [split_on]. destruct (c =? sep)%Z eqn:E.
  - apply Z.eqb_eq in E. subst c.
    pose proof (split_on_not_nil sep s) as Hn.
    destruct (split_on sep s) as [|p ps]; [contradiction|].
    change (join_on sep ([] :: p :: ps)) with ([] ++ sep :: join_on sep (p :: ps)).
    rewrite IH. reflexivity.
  - pose proof (split_on_not_nil sep s) as Hn.
    destruct (split_on sep s) as [|p ps]; [contradiction|].
    rewrite join_on_cons, IH. reflexivity.
Qed.

Lemma split_on_no_sep (sep : char) (s : list char) :
  Forall (fun o => existsb (Z.eqb sep) o = false) (split_on sep s).
Proof.
  induction s as [|c s IH]; [repeat constructor|].
  cbn [split_on]. destruct (c =? sep)%Z eqn:E.
  - constructor; [reflexivity | exact IH].
  - destruct (split_on sep s) as [|p ps]; [repeat constructor; cbn; rewrite Z.eqb_sym, E; reflexivity|].
    inversion IH as [|? ? Hp Hps]; subst.
    constructor; [|exact Hps].
    cbn [existsb]. rewrite Z.eqb_sym, E. exact Hp.
Qed.

Lemma tokenize_pattern_group (g : list char) :
  existsb (Z.eqb (chr ")")) g = false ->
  tokenize_pattern (chr "(" :: g ++ [chr ")"]) =
  Returned (false, false, [Alternation (split_on (chr "|") g)]).
Proof.
  intros H. rewrite tokenize_pattern_no_anchor;
    [| reflexivity | exact (ends_with_char_snoc (chr "(" :: g) (chr ")") (chr "$"))].
  cbn [tokenize_loop]. rewrite (group_loop_closed g [] [] [] H). reflexivity.
Qed.

(** A group ["(g)"], with [g] free of [')'], compiles to one alternation
    whose options are the pieces of [g] between the ['|']s: no option
    contains ['|'], and joining them with ['|'] gives [g] back. *)
Theorem group_options_roundtrip (g : list char) (H : existsb (Z.eqb (chr ")")) g = false) :
  tokenize_pattern (chr "(" :: g ++ [chr ")"]) =
    Returned (false, false, [Alternation (split_on (chr "|") g)]) /\
  join_on (chr "|") (split_on (chr "|") g) = g /\
  Forall (fun o => existsb (Z.eqb (chr "|")) o = false) (split_on (chr "|") g).
Proof.
  split; [exact (tokenize_pattern_group g H)|].
  split; [apply join_split_on | apply split_on_no_sep].
Qed.

Lemma group_options_roundtrip_witness :
  tokenize_pattern (chars_of "(cat|dog|)") =
    Returned (false, false, [Alternation [chars_of "cat"; chars_of "dog"; []]]).
Proof.
  exact (proj1 (group_options_roundtrip (chars_of "cat|dog|") eq_refl)).
Defined.

Lemma len_utf8_pos (c : char) : 1 <= len_utf8 c.
Proof.
  unfold len_utf8.
  destruct (c <? 128)%Z; [|destruct (c <? 2048)%Z; [|destruct (c <? 65536)%Z]]; lia.
Qed.

Lemma str_slice_from_prefix (s o : list char) :
  starts_with s o = true -> exists r, str_slice_from s (str_len o) = Returned r.
Proof.
  revert s. induction o as [|c o IH]; intros s H.
  - destruct s; eexists; reflexivity.
  - destruct s as [|x s]; [discriminate|].
    cbn [starts_with] in H. apply andb_prop in H as [Hx H].
    apply Z.eqb_eq in Hx. subst x.
    cbn [str_len fold_right]. fold (str_len o).
    pose proof (len_utf8_pos c) as Hpos.
    cbn [str_slice_from].
    replace (Nat.eqb (len_utf8 c + str_len o) 0) with false
      by (symmetry; apply Nat.eqb_neq; lia).
    replace (Nat.ltb (len_utf8 c + str_len o) (len_utf8 c)) with false
      by (symmetry; apply Nat.ltb_ge; lia).
    replace (len_utf8 c + str_len o - len_utf8 c) with (str_len o) by lia.
    apply IH, H.
Qed.

Lemma matchhere_alternation (s : list char) (options : list (list char)) :
  matchhere s [Alternation options] false =
  Returned (existsb (fun o => starts_with s o) options).
Proof.
  cbn [matchhere]. apply list_any_returned. intros o _.
  destruct (starts_with s o) eqn:E; [|reflexivity].
  destruct (str_slice_from_prefix s o E) as [r Hr]. rewrite Hr. reflexivity.
Qed.

(** A group ["(g)"], with [g] free of [')'], searched in an ASCII
    subject, matches exactly when some non-empty suffix of the subject
    starts with one of the ['|']-separated options of [g]. *)
Theorem group_pattern_search (t g : list char)
  (Hg : existsb (Z.eqb (chr ")")) g = false) (Ht : is_ascii t = true) :
  match_pattern t (chr "(" :: g ++ [chr ")"]) =
  Returned (existsb (fun s => existsb (fun o => starts_with s o) (split_on (chr "|") g))
                    (suffixes t)).
Proof.
  rewrite (match_pattern_ascii_search t _ false _ Ht (tokenize_pattern_group g Hg)).
  apply list_any_returned. intros s _. apply matchhere_alternation.
Qed.

Lemma group_pattern_search_witness :
  match_pattern (chars_of "I have a cat") (chars_of "(cat|dog)") = Returned true /\
  match_pattern (chars_of "cow") (chars_of "(cat|dog)") = Returned false.
Proof.
  split.
  - exact (group_pattern_search (chars_of "I have a cat") (chars_of "cat|dog") eq_refl eq_refl).
  - exact (group_pattern_search (chars_of "cow") (chars_of "cat|dog") eq_refl eq_refl).
Defined.



Lemma tokenize_pattern_quantified (c q : char) (Hc : special_char c = false)
  (Hq : (q =? chr "$")%Z = false) :
  tokenize_pattern [c; q] = (tokens <- tokenize_loop [c; q] [] ;;
                             Returned (false, false, rev tokens)).
Proof.
  destruct (special_char_false c Hc) as (_ & _ & _ & _ & _ & _ & E7 & _).
  apply tokenize_pattern_no_anchor; [exact E7|].
  change [c; q] with ([c] ++ [q]). rewrite ends_with_char_snoc. exact Hq.
Qed.

Lemma tokenize_loop_char_then (c : char) (tokens : list token) (rest : list char) :
  special_char c = false ->
  tokenize_loop (c :: rest) tokens = tokenize_loop rest (Literal c :: tokens).
Proof.
  intros Hc. destruct (special_char_false c Hc) as (E1 & E2 & E3 & E4 & E5 & E6 & _).
  cbn [tokenize_loop]. rewrite E1, E2, E3, E4, E5, E6. reflexivity.
Qed.

Lemma matchhere_optional_char (c x : char) (s : list char) :
  (c <? 128)%Z = true -> matchhere (x :: s) [ZeroOrOne (Literal c)] false = Returned true.
Proof.
  intros Hc.
  cbn [matchhere first_matches is_empty first_char bind matchone].
  destruct (x =? c)%Z eqn:E; cbn [bind]; [|reflexivity].
  apply Z.eqb_eq in E. subst x. rewrite (str_slice_from_one_ascii c s Hc). reflexivity.
Qed.

(** A lone optional char ["c?"], for a plain ASCII char [c], matches
    every non-empty subject, of any chars, and not the empty one: when
    the char is absent the token matches the empty string. *)
Theorem optional_char_matches_nonempty (c : char) (t : list char)
  (Hc : special_char c = false) (Hca : (c <? 128)%Z = true) :
  match_pattern t [c; chr "?"] = Returned (negb (is_empty t)).
Proof.
  assert (Hcomp : tokenize_pattern [c; chr "?"] = Returned (false, false, [ZeroOrOne (Literal c)])).
  { rewrite (tokenize_pattern_quantified c (chr "?") Hc eq_refl).
    rewrite (tokenize_loop_char_then c [] [chr "?"] Hc). reflexivity. }
  unfold match_pattern. rewrite Hcomp. cbn [bind].
  destruct t as [|x t]; [reflexivity|].
  destruct (str_len_cons x t) as [k Hk].
  unfold range_any. rewrite Hk. cbn [Nat.sub range_any_from].
  cbn [str_slice_from Nat.eqb bind].
  rewrite (matchhere_optional_char c x t Hca). reflexivity.
Qed.

Lemma optional_char_matches_nonempty_witness :
  match_pattern (chars_of "xyz") (chars_of "a?") = Returned true.
Proof. exact (optional_char_matches_nonempty (chr "a") (chars_of "xyz") eq_refl eq_refl). Defined.

Lemma matchhere_plus_char (c x : char) (s : list char) :
  (x <? 128)%Z = true ->
  matchhere (x :: s) [OneOrMore (Literal c)] false =
  if (x =? c)%Z then match s with [] => Returned false | _ :: _ => Panicked SliceIndexOutOfRange end
  else Returned false.
Proof.
  intros Hx.
  cbn [matchhere matchoneormore first_matches is_empty first_char bind matchone].
  destruct (x =? c)%Z; cbn [negb]; [|reflexivity].
  unfold range_any. cbn [str_len fold_right]. fold (str_len s).
  rewrite (len_utf8_ascii x Hx). cbn [Nat.add Nat.sub].
  destruct s as [|y s]; [reflexivity|].
  destruct (str_len_cons y s) as [k Hk]. rewrite Hk, Nat.sub_0_r. cbn [range_any_from].
  rewrite (str_slice_from_one_ascii x (y :: s) Hx). reflexivity.
Qed.

(** ["c+"], for a plain char [c], searched in an ASCII subject, panics
    when [c] occurs in the subject before its last char, and otherwise
    returns false: it never returns true. *)
Theorem plus_char_search (c : char) (t : list char)
  (Hc : special_char c = false) (Ht : is_ascii t = true) :
  match_pattern t [c; chr "+"] =
  if existsb (fun x => (x =? c)%Z) (removelast t)
  then Panicked SliceIndexOutOfRange else Returned false.
Proof.
  assert (Hcomp : tokenize_pattern [c; chr "+"] = Returned (false, false, [OneOrMore (Literal c)])).
  { rewrite (tokenize_pattern_quantified c (chr "+") Hc eq_refl).
    rewrite (tokenize_loop_char_then c [] [chr "+"] Hc). reflexivity. }
  rewrite (match_pattern_ascii_search t _ false _ Ht Hcomp).
  induction t as [|x t IH]; [reflexivity|].
  simpl in Ht. apply andb_prop in Ht as [Hx Ht].
  cbn [suffixes list_any]. rewrite (matchhere_plus_char c x t Hx).
  destruct (x =? c)%Z eqn:E.
  - destruct t as [|y t]; [reflexivity|].
    cbn [bind removelast existsb]. rewrite E. reflexivity.
  - cbn [bind]. rewrite (IH Ht).
    destruct t as [|y t]; [reflexivity|].
    change (removelast (x :: y :: t)) with (x :: removelast (y :: t)).
    cbn [existsb]. rewrite E. reflexivity.
Qed.

Lemma plus_char_search_witness :
  match_pattern (chars_of "xa") (chars_of "a+") = Returned false /\
  match_pattern (chars_of "ab") (chars_of "a+") = Panicked SliceIndexOutOfRange.
Proof.
  split.
  - exact (plus_char_search (chr "a") (chars_of "xa") eq_refl eq_refl).
  - exact (plus_char_search (chr "a") (chars_of "ab") eq_refl eq_refl).
Defined.

Lemma main_stdin_ext (args : list (list char)) (s1 s2 : list char) :
  trim_end (read_line s1) = trim_end (read_line s2) -> main args s1 = main args s2.
Proof. intros H. unfold main. rewrite H. reflexivity. Qed.

Lemma read_line_app (line r : list char) :
  existsb (Z.eqb 10) line = false -> read_line (line ++ r) = line ++ read_line r.
Proof.
  induction line as [|c line IH]; intros H; [reflexivity|].
  cbn [existsb] in H. apply orb_false_iff in H as [Hc H].
  cbn [app read_line]. rewrite Z.eqb_sym, Hc, (IH H). reflexivity.
Qed.

Lemma read_line_no_newline (line : list char) :
  existsb (Z.eqb 10) line = false -> read_line line = line.
Proof. intros H. rewrite <- (app_nil_r line) at 1. rewrite (read_line_app line [] H). apply app_nil_r. Qed.

Lemma read_line_forallb (f : char -> bool) (ws : list char) :
  forallb f ws = true -> forallb f (read_line ws) = true.
Proof.
  induction ws as [|c ws IH]; intros H; [reflexivity|].
  cbn [forallb] in H. apply andb_prop in H as [Hc H].
  cbn [read_line]. destruct (c =? 10)%Z; cbn [forallb]; rewrite Hc; [reflexivity|]. apply IH, H.
Qed.

Lemma drop_whitespace_app (w r : list char) :
  forallb is_whitespace w = true -> drop_whitespace (w ++ r) = drop_whitespace r.
Proof.
  induction w as [|c w IH]; intros H; [reflexivity|].
  cbn [forallb] in H. apply andb_prop in H as [Hc H].
  cbn [app drop_whitespace]. rewrite Hc. apply IH, H.
Qed.

Lemma forallb_rev' {A} (f : A -> bool) (l : list A) :
  forallb f l = true -> forallb f (rev l) = true.
Proof.
  intros H. apply forallb_forall. intros x Hx.
  apply (proj1 (forallb_forall f l) H). apply in_rev, Hx.
Qed.

Lemma trim_end_app_ws (s ws : list char) :
  forallb is_whitespace ws = true -> trim_end (s ++ ws) = trim_end s.
Proof.
  intros H. unfold trim_end. rewrite rev_app_distr.
  rewrite (drop_whitespace_app (rev ws) (rev s) (forallb_rev' _ _ H)). reflexivity.
Qed.

(** [main] with a first argument other than ["-E"] prints the usage
    message and exits with status 1, whatever the pattern argument (or
    its absence) and the standard input. *)
Theorem main_rejects_other_flag (args : list (list char)) (stdin a1 : list char)
  (H1 : nth_error args 1 = Some a1) (H2 : str_eqb a1 (chars_of "-E") = false) :
  main args stdin = print_exit "Expected first argument to be '-E'" 1.
Proof. unfold main. rewrite H1. cbn [unwrap bind]. rewrite H2. reflexivity. Qed.

Lemma main_rejects_other_flag_witness :
  main [chars_of "grep"; chars_of "-F"] (chars_of "abc") =
  print_exit "Expected first argument to be '-E'" 1.
Proof. exact (main_rejects_other_flag [chars_of "grep"; chars_of "-F"] (chars_of "abc") (chars_of "-F") eq_refl eq_refl). Defined.

(** [main] panics in an [.unwrap()] when the command line has no first
    argument, and when its first argument is ["-E"] and there is no
    pattern argument after it; it never reads the input then. *)
Theorem main_missing_arguments (args : list (list char)) (stdin : list char)
  (H : nth_error args 1 = None \/
       (nth_error args 1 = Some (chars_of "-E") /\ nth_error args 2 = None)) :
  main args stdin = Panicked UnwrapNone.
Proof.
  unfold main. destruct H as [H1 | [H1 H2]]; rewrite H1; [reflexivity|].
  cbn [unwrap bind]. change (str_eqb (chars_of "-E") (chars_of "-E")) with true.
  cbn [negb]. rewrite H2. reflexivity.
Qed.

Lemma main_missing_arguments_witness :
  main [chars_of "grep"] (chars_of "abc") = Panicked UnwrapNone /\
  main [chars_of "grep"; chars_of "-E"] (chars_of "abc") = Panicked UnwrapNone.
Proof.
  split.
  - exact (main_missing_arguments [chars_of "grep"] (chars_of "abc") (or_introl eq_refl)).
  - exact (main_missing_arguments [chars_of "grep"; chars_of "-E"] (chars_of "abc")
             (or_intror (conj eq_refl eq_refl))).
Defined.

(** When [main] returns, it has printed exactly one of its three lines
    and exits with 0 after ["This is a match"] and with 1 after the other
    two: status 0 always means a match was found. *)
Theorem main_exit_status (args : list (list char)) (stdin : list char) (r : run)
  (H : main args stdin = Returned r) :
  (exit_code r = 0%Z /\ stdout r = chars_of "This is a match" ++ [10%Z]) \/
  (exit_code r = 1%Z /\
   (stdout r = chars_of "This is not a match" ++ [10%Z] \/
    stdout r = chars_of "Expected first argument to be '-E'" ++ [10%Z])).
Proof.
  unfold main, print_exit in H.
  destruct (nth_error args 1) as [a1|]; cbn [unwrap bind] in H; [|discriminate H].
  destruct (negb (str_eqb a1 (chars_of "-E"))).
  { injection H as <-. right. split; [reflexivity|right; reflexivity]. }
  destruct (nth_error args 2) as [p|]; cbn [unwrap bind] in H; [|discriminate H].
  destruct (match_pattern (trim_end (read_line stdin)) p) as [[|]|]; cbn [bind] in H.
  - injection H as <-. left. split; reflexivity.
  - injection H as <-. right. split; [reflexivity|left; reflexivity].
  - discriminate H.
Qed.

Lemma main_exit_status_witness :
  (0%Z = 0%Z /\ chars_of "This is a match" ++ [10%Z] = chars_of "This is a match" ++ [10%Z]) \/
  (0%Z = 1%Z /\
   (chars_of "This is a match" ++ [10%Z] = chars_of "This is not a match" ++ [10%Z] \/
    chars_of "This is a match" ++ [10%Z] = chars_of "Expected first argument to be '-E'" ++ [10%Z])).
Proof.
  exact (main_exit_status [chars_of "grep"; chars_of "-E"; chars_of "b"] (chars_of "abc")
           {| stdout := chars_of "This is a match" ++ [10%Z]; exit_code := 0 |} eq_refl).
Defined.

(** [main] reads only the first line of its input: what follows the
    first newline never changes what it prints or its status. *)
Theorem main_reads_first_line (args : list (list char)) (line rest : list char)
  (Hl : existsb (Z.eqb 10) line = false) :
  main args (line ++ 10%Z :: rest) = main args line.
Proof.
  apply main_stdin_ext.
  rewrite (read_line_app line _ Hl), (read_line_no_newline line Hl).
  cbn [read_line Z.eqb]. apply trim_end_app_ws. reflexivity.
Qed.

Lemma main_reads_first_line_witness :
  main [chars_of "grep"; chars_of "-E"; chars_of "b"] (chars_of "ac" ++ 10%Z :: chars_of "b") =
  main [chars_of "grep"; chars_of "-E"; chars_of "b"] (chars_of "ac").
Proof. exact (main_reads_first_line _ (chars_of "ac") (chars_of "b") eq_refl). Defined.

(** Whitespace after the first line's text, newlines included, never
    changes what [main] prints or its status: the line is trimmed at its
    end before it is matched. *)
Theorem main_ignores_trailing_whitespace (args : list (list char)) (line ws : list char)
  (Hl : existsb (Z.eqb 10) line = false) (Hws : forallb is_whitespace ws = true) :
  main args (line ++ ws) = main args line.
Proof.
  apply main_stdin_ext.
  rewrite (read_line_app line _ Hl), (read_line_no_newline line Hl).
  apply trim_end_app_ws, read_line_forallb, Hws.
Qed.

Lemma main_ignores_trailing_whitespace_witness :
  main [chars_of "grep"; chars_of "-E"; chars_of "c$"] (chars_of "abc" ++ [32%Z; 9%Z; 10%Z; 32%Z]) =
  main [chars_of "grep"; chars_of "-E"; chars_of "c$"] (chars_of "abc").
Proof. exact (main_ignores_trailing_whitespace _ (chars_of "abc") [32%Z; 9%Z; 10%Z; 32%Z] eq_refl eq_refl). Defined.
